(** * Ecological inference model (inference.py): a shallow embedding

    The Python module builds a PyMC3 model for King's 2x2 ecological
    inference and runs the NUTS sampler on it.  The embedding keeps the
    program's own structure:

    - numpy float arrays are lists of extended rationals ([fval]): finite
      values are exact rationals, and the IEEE special values inf, -inf and
      nan are kept because the true division of the wrapper can produce
      them.  Rounding, overflow and signed zeros are not modelled;
    - the symbolic tensors handed to PyMC3 are a small expression type
      ([tensor]) with numpy broadcasting as its evaluation;
    - the statements inside [with pm.Model() as model:] run in a state and
      error monad over the model under construction; the functions
      themselves run in the same monad over a [world] that records the
      calls made into the library;
    - the sampler is an oracle ([pm_sample]) of the enclosing section. *)

From Stdlib Require Import QArith Lqa.
From stdpp Require Import base option list strings gmap.

Local Open Scope string_scope.
Local Open Scope nat_scope.

(** ** Python exceptions and the state/error monad *)

Record exn := Exn { exn_class : string; exn_msg : string }.

Definition TypeError (msg : string) : exn := Exn "TypeError" msg.
Definition ValueError (msg : string) : exn := Exn "ValueError" msg.
Definition KeyError (key : string) : exn := Exn "KeyError" key.

Definition M (S A : Type) : Type := S -> (exn + A) * S.

Definition ret {S A : Type} (a : A) : M S A := fun s => (inr a, s).

Definition bind {S A B : Type} (c : M S A) (k : A -> M S B) : M S B :=
  fun s =>
    match c s with
    | (inl e, s') => (inl e, s')
    | (inr a, s') => k a s'
    end.

Definition raise {S A : Type} (e : exn) : M S A := fun s => (inl e, s).

Definition modify {S : Type} (f : S -> S) : M S unit := fun s => (inr tt, f s).

Declare Scope py_scope.
Delimit Scope py_scope with py.
Notation "x <- c ;; k" := (bind c (fun x => k))
  (at level 100, c at next level, right associativity) : py_scope.
Local Open Scope py_scope.

(** ** Floating point values and numpy arrays *)

Inductive fval : Type :=
| Fin (q : Q)
| PInf
| NInf
| NaN.

Definition is_finite (x : fval) : bool :=
  match x with Fin _ => true | _ => false end.

Definition inf_of_sign (c : comparison) : fval :=
  match c with Gt => PInf | Lt => NInf | Eq => NaN end.

Definition fsign (x : fval) : comparison :=
  match x with
  | Fin q => (q ?= 0)%Q
  | PInf => Gt
  | NInf => Lt
  | NaN => Eq
  end.

Definition sign_mul (a b : comparison) : comparison :=
  match a, b with
  | Eq, _ | _, Eq => Eq
  | Gt, Gt | Lt, Lt => Gt
  | _, _ => Lt
  end.

Definition fneg (x : fval) : fval :=
  match x with
  | Fin q => Fin (- q)%Q
  | PInf => NInf
  | NInf => PInf
  | NaN => NaN
  end.

Definition fadd (x y : fval) : fval :=
  match x, y with
  | NaN, _ | _, NaN => NaN
  | Fin a, Fin b => Fin (a + b)%Q
  | PInf, NInf | NInf, PInf => NaN
  | PInf, _ | _, PInf => PInf
  | NInf, _ | _, NInf => NInf
  end.

Definition fsub (x y : fval) : fval := fadd x (fneg y).

Definition fmul (x y : fval) : fval :=
  match x, y with
  | NaN, _ | _, NaN => NaN
  | Fin a, Fin b => Fin (a * b)%Q
  | _, _ => inf_of_sign (sign_mul (fsign x) (fsign y))
  end.

(** numpy's [true_divide] on finite operands: a zero divisor gives inf,
    -inf or nan (with a warning), never an exception. *)
Definition true_divide (a b : Q) : fval :=
  if Qeq_bool b 0 then inf_of_sign (a ?= 0)%Q else Fin (a / b)%Q.

(** Equality of values: rationals are compared by [Qeq]. *)
Definition feq (x y : fval) : Prop :=
  match x, y with
  | Fin a, Fin b => (a == b)%Q
  | PInf, PInf | NInf, NInf | NaN, NaN => True
  | _, _ => False
  end.

(** A one-dimensional float array. *)
Abbreviation ndarray := (list fval).

(** [1 - a] for a Python number on the left and an array on the right. *)
Definition np_rsub (c : fval) (a : ndarray) : ndarray := fsub c <$> a.

(** ** Tensors: the symbolic expressions given to PyMC3 *)

Inductive tensor : Type :=
| TConst (c : fval)
| TArray (a : ndarray)
| TVar (name : string)
| TIndex (t : tensor) (i : nat)
| TAdd (a b : tensor)
| TMul (a b : tensor).

Inductive value : Type :=
| VScalar (x : fval)
| VVector (l : list fval).

(** Elementwise binary operation with numpy broadcasting on 0-d and 1-d
    operands; [None] is a shape error. *)
Definition broadcast2 (f : fval -> fval -> fval) (a b : value) : option value :=
  match a, b with
  | VScalar x, VScalar y => Some (VScalar (f x y))
  | VScalar x, VVector ys => Some (VVector (f x <$> ys))
  | VVector xs, VScalar y => Some (VVector ((fun x => f x y) <$> xs))
  | VVector xs, VVector ys =>
      if length xs =? length ys then Some (VVector (zip_with f xs ys))
      else match xs, ys with
           | [x], _ => Some (VVector (f x <$> ys))
           | _, [y] => Some (VVector ((fun x => f x y) <$> xs))
           | _, _ => None
           end
  end.

Definition index_value (v : value) (i : nat) : option value :=
  match v with
  | VScalar _ => None
  | VVector l => VScalar <$> l !! i
  end.

Fixpoint eval (env : gmap string value) (t : tensor) : option value :=
  match t with
  | TConst c => Some (VScalar c)
  | TArray a => Some (VVector a)
  | TVar name => env !! name
  | TIndex t i => v ← eval env t; index_value v i
  | TAdd a b => x ← eval env a; y ← eval env b; broadcast2 fadd x y
  | TMul a b => x ← eval env a; y ← eval env b; broadcast2 fmul x y
  end.

(** ** PyMC3 models *)

Inductive dist : Type :=
| Exponential (lam : tensor)
| Beta (alpha beta : tensor)
| Binomial (n p : tensor).

Inductive node : Type :=
| FreeRV (name : string) (d : dist) (shape : nat)
| Deterministic (name : string) (e : tensor)
| ObservedRV (name : string) (d : dist) (shape : nat) (observed : ndarray).

Definition node_name (nd : node) : string :=
  match nd with
  | FreeRV name _ _ => name
  | Deterministic name _ => name
  | ObservedRV name _ _ _ => name
  end.

(** A model is the list of its named variables, in declaration order. *)
Definition Model : Type := list node.

Definition named_vars (m : Model) : list string := node_name <$> m.

(** [Model.add_random_variable] of PyMC3: a name can be registered once,
    a second registration raises ValueError. *)
Definition add_random_variable (nd : node) : M Model tensor :=
  fun m =>
    if bool_decide (node_name nd ∈ named_vars m)
    then (inl (ValueError ("Variable name " +:+ node_name nd +:+ " already exists.")), m)
    else (inr (TVar (node_name nd)), (m ++ [nd])%list).

Definition pm_Exponential (name : string) (lam : tensor) (shape : nat) : M Model tensor :=
  add_random_variable (FreeRV name (Exponential lam) shape).

Definition pm_Beta (name : string) (alpha beta : tensor) (shape : nat) : M Model tensor :=
  add_random_variable (FreeRV name (Beta alpha beta) shape).

Definition pm_Deterministic (name : string) (e : tensor) : M Model tensor :=
  add_random_variable (Deterministic name e).

Definition pm_Binomial (name : string) (n p : tensor) (shape : nat)
    (observed : ndarray) : M Model tensor :=
  add_random_variable (ObservedRV name (Binomial n p) shape observed).

(** ['prefix{}'.format(group_name)] for a string argument. *)
Definition format1 (prefix arg : string) : string := prefix +:+ arg.

(** ** Python values, keyword arguments and the calls into the library *)

Inductive pyval : Type :=
| PyNone
| PyBool (b : bool)
| PyInt (z : Z)
| PyFloat (q : Q)
| PyStr (s : string)
| PyDict (d : pydict)
with pydict : Type :=
| DictEmpty
| DictItem (key : string) (v : pyval) (rest : pydict).

Record sample_call := SampleCall {
  sc_model : Model;
  sc_args : list pyval;
  sc_kwargs : gmap string pyval
}.

Inductive event : Type :=
| EvModel
| EvSample (c : sample_call).

Record world (E : Type) := World { w_engine : E; w_log : list event }.
Arguments World {E} _ _.
Arguments w_engine {E} _.
Arguments w_log {E} _.

Definition emit {E : Type} (ev : event) : M (world E) unit :=
  modify (fun w => World (w_engine w) (w_log w ++ [ev])%list).


Definition is_model (ev : event) : bool :=
  match ev with EvModel => true | EvSample _ => false end.

Definition models_created (l : list event) : nat := length (List.filter is_model l).

(** [with pm.Model() as model: body] followed by [return model]: a fresh
    model is created, the body registers its variables in it, and an
    exception of the body propagates out of the block. *)
Definition with_pm_Model {E A : Type} (body : M Model A) : M (world E) Model :=
  _ <- emit EvModel ;;
  fun w =>
    match body [] with
    | (inl e, _) => (inl e, w)
    | (inr _, model) => (inr model, w)
    end.

Definition length_error_msg : string :=
  "Each of `num_votes_for_group`, `voting_population`, and `pct_minority` must" +:+
  "be an iterable of the same length (which is the number of precincts)".

Definition default_lam : fval := Fin (1 # 2).
Definition default_group_name : string := "dem".

(** [ecological_inference_model] (inference.py, lines 4-60): the length
    check of lines 32-35, then the six declarations of lines 37-58 inside
    [with pm.Model() as model:], in their order. *)
Definition ecological_inference_model {E : Type}
    (num_votes_for_group voting_population pct_minority : ndarray)
    (lam : fval) (group_name : string) : M (world E) Model :=
  let n_precincts := length voting_population in
  if negb (forallb (fun len_data => len_data =? n_precincts)
             [length num_votes_for_group; length voting_population; length pct_minority])
  then raise (TypeError length_error_msg)
  else
    with_pm_Model (
      alpha <- pm_Exponential "alpha" (TConst lam) 2 ;;
      beta <- pm_Exponential "beta" (TConst lam) 2 ;;
      pct_minority_voting_dem <-
        pm_Beta (format1 "pct_minority_voting_" group_name)
                (TIndex alpha 0) (TIndex beta 0) n_precincts ;;
      pct_majority_voting_dem <-
        pm_Beta (format1 "pct_majority_voting_" group_name)
                (TIndex alpha 1) (TIndex beta 1) n_precincts ;;
      est_voting_dem <-
        pm_Deterministic (format1 "est_voting_" group_name)
          (TAdd (TMul (TArray pct_minority) pct_minority_voting_dem)
                (TMul (TArray (np_rsub (Fin 1) pct_minority)) pct_majority_voting_dem)) ;;
      pm_Binomial (format1 "votes_for_" group_name)
                  (TArray voting_population) est_voting_dem n_precincts
                  num_votes_for_group).

(** ** Data frames *)

(** A [pd.DataFrame] of numeric columns, stored by column; the cells are
    finite numbers.  In a data frame every column has as many entries as
    the frame has rows. *)
Abbreviation DataFrame := (gmap string (list Q)).

Definition df_rows (n : nat) (df : DataFrame) : Prop :=
  map_Forall (fun (_ : string) (col : list Q) => length col = n) df.

(** [df[col]] *)
Definition df_getitem {S : Type} (df : DataFrame) (col : string) : M S (list Q) :=
  match df !! col with
  | Some series => ret series
  | None => raise (KeyError col)
  end.

Definition series_sub (a b : list Q) : list Q := zip_with Qminus a b.
Definition series_add (a b : list Q) : list Q := zip_with Qplus a b.
Definition series_truediv (a b : list Q) : list fval := zip_with true_divide a b.

(** [.values] of a numeric series, as a float array. *)
Definition values (s : list Q) : ndarray := Fin <$> s.

(** ** The sampler wrapper *)

Definition nuts_kwargs : pyval :=
  PyDict (DictItem "target_accept" (PyFloat (49 # 50)) DictEmpty).

(** The keywords of a call that names one keyword and unpacks the
    dictionary [sample_kwargs] after it: Python refuses a keyword given
    twice, before the callee is entered. *)
Definition call_kwargs {S : Type} (callee key : string) (v : pyval)
    (sample_kwargs : gmap string pyval) : M S (gmap string pyval) :=
  match sample_kwargs !! key with
  | Some _ =>
      raise (TypeError (callee +:+ "() got multiple values for keyword argument '" +:+
                        key +:+ "'"))
  | None => ret (<[key := v]> sample_kwargs)
  end.

Section Sampler.

(** The MCMC engine: its state (random generator, caches), the type of
    its traces and [pm.sample] itself, which may raise. *)
Context {E MultiTrace : Type}.
Variable pm_sample : sample_call -> E -> (exn + MultiTrace) * E.

(** A call of [pm.sample] with positional and keyword arguments, made
    inside [with model:]. *)
Definition call_pm_sample (model : Model) (args : list pyval)
    (kwargs : gmap string pyval) : M (world E) MultiTrace :=
  let c := SampleCall model args kwargs in
  _ <- emit (EvSample c) ;;
  fun w =>
    let '(r, e) := pm_sample c (w_engine w) in
    (r, World e (w_log w)).

(** The body of the [with] block, for the model that was built. *)
Definition sampling_step (model : Model) (sample_kwargs : gmap string pyval) :
    M (world E) MultiTrace :=
  kwargs <- call_kwargs "sample" "nuts_kwargs" nuts_kwargs sample_kwargs ;;
  trace <- call_pm_sample model [PyInt 5000] kwargs ;;
  ret trace.

(** [run_ecological_inference] (inference.py, lines 63-88): the column
    reads of lines 81-84 in the order of evaluation, the model built with
    the default [lam] and [group_name], then the body of the [with]
    block. *)
Definition run_ecological_inference (district_df : DataFrame)
    (sample_kwargs : gmap string pyval) : M (world E) MultiTrace :=
  total <- df_getitem district_df "Total" ;;
  white_alone <- df_getitem district_df "White Alone" ;;
  total' <- df_getitem district_df "Total" ;;
  let pct_minority := series_truediv (series_sub total white_alone) total' in
  dem <- df_getitem district_df "DEM" ;;
  rep <- df_getitem district_df "REP" ;;
  let voting_population := values (series_add dem rep) in
  dem' <- df_getitem district_df "DEM" ;;
  let num_voting_for_dems := values dem' in
  model <- ecological_inference_model num_voting_for_dems voting_population
             pct_minority default_lam default_group_name ;;
  sampling_step model sample_kwargs.

End Sampler.

(** ** Reading a model: values of its variables and per-precinct laws *)

(** The values of all named variables for a draw of the free ones: each
    [Deterministic] is computed from what precedes it. *)
Definition model_env (m : Model) (draw : gmap string value) : gmap string value :=
  foldl (fun env nd =>
           match nd with
           | Deterministic name e =>
               match eval env e with
               | Some v => <[name := v]> env
               | None => env
               end
           | _ => env
           end) draw m.

Inductive sdist : Type :=
| SExponential (lam : fval)
| SBeta (alpha beta : fval)
| SBinomial (n p : fval).

Record scalar_rv := ScalarRV { rv_dist : sdist; rv_observed : option fval }.

(** Entry [i] of a parameter broadcast to the shape of its variable. *)
Definition elem (v : value) (i : nat) : option fval :=
  match v with
  | VScalar x => Some x
  | VVector [x] => Some x
  | VVector l => l !! i
  end.

Definition param_at (env : gmap string value) (t : tensor) (i : nat) : option fval :=
  v ← eval env t; elem v i.

Definition dist_at (env : gmap string value) (d : dist) (i : nat) : option sdist :=
  match d with
  | Exponential lam => SExponential <$> param_at env lam i
  | Beta alpha beta =>
      a ← param_at env alpha i; b ← param_at env beta i; Some (SBeta a b)
  | Binomial n p =>
      n' ← param_at env n i; p' ← param_at env p i; Some (SBinomial n' p')
  end.

(** The law of entry [i] of a random variable of the model. *)
Definition rv_at (env : gmap string value) (nd : node) (i : nat) : option scalar_rv :=
  match nd with
  | FreeRV _ d shape =>
      if i <? shape then d' ← dist_at env d i; Some (ScalarRV d' None) else None
  | Deterministic _ _ => None
  | ObservedRV _ d shape observed =>
      if i <? shape
      then d' ← dist_at env d i; o ← observed !! i; Some (ScalarRV d' (Some o))
      else None
  end.

Definition lookup_var (m : Model) (name : string) : option node :=
  List.find (fun nd => String.eqb (node_name nd) name) m.

(** The law of entry [i] of the variable called [name]. *)
Definition var_at (m : Model) (env : gmap string value) (name : string) (i : nat) :
    option scalar_rv :=
  nd ← lookup_var m name; rv_at env nd i.


(** The variables [ecological_inference_model] declares, in order. *)
Definition declared_nodes (num_votes_for_group voting_population pct_minority : ndarray)
    (lam : fval) (group_name : string) : Model :=
  let n_precincts := length voting_population in
  [ FreeRV "alpha" (Exponential (TConst lam)) 2;
    FreeRV "beta" (Exponential (TConst lam)) 2;
    FreeRV (format1 "pct_minority_voting_" group_name)
      (Beta (TIndex (TVar "alpha") 0) (TIndex (TVar "beta") 0)) n_precincts;
    FreeRV (format1 "pct_majority_voting_" group_name)
      (Beta (TIndex (TVar "alpha") 1) (TIndex (TVar "beta") 1)) n_precincts;
    Deterministic (format1 "est_voting_" group_name)
      (TAdd (TMul (TArray pct_minority) (TVar (format1 "pct_minority_voting_" group_name)))
            (TMul (TArray (np_rsub (Fin 1) pct_minority))
                  (TVar (format1 "pct_majority_voting_" group_name))));
    ObservedRV (format1 "votes_for_" group_name)
      (Binomial (TArray voting_population) (TVar (format1 "est_voting_" group_name)))
      n_precincts num_votes_for_group ].

(** The three data arrays have one length. *)
Definition same_lengths (nv vp pm : ndarray) : Prop :=
  length nv = length vp /\ length pm = length vp.

(** The engine and trace used to run the functions on concrete inputs:
    the trace lists the variable names of the sampled model. *)
Definition names_engine (c : sample_call) (e : nat) : (exn + list string) * nat :=
  (inr (named_vars (sc_model c)), S e).


Definition w0 : world nat := World 0 [].

(** Two precincts, the first without minority population and the second
    entirely minority, and a draw of the free variables for them. *)
Definition ex_votes : ndarray := [Fin 50; Fin 30].
Definition ex_population : ndarray := [Fin 100; Fin 80].
Definition ex_minority : ndarray := [Fin 0; Fin 1].
Definition ex_minority_rates : list Q := [1 # 4; 3 # 4].
Definition ex_majority_rates : list Q := [1 # 5; 3 # 5].

Definition ex_draw : gmap string value :=
  <["alpha" := VVector [Fin 2; Fin 3]]>
    (<["beta" := VVector [Fin 5; Fin 7]]>
       (<["pct_minority_voting_dem" := VVector (Fin <$> ex_minority_rates)]>
          (<["pct_majority_voting_dem" := VVector (Fin <$> ex_majority_rates)]> ∅))).

Definition is_random (nd : node) : bool :=
  match nd with Deterministic _ _ => false | _ => true end.

Definition random_vars (m : Model) : list string :=
  node_name <$> List.filter is_random m.

(** The three-level structure of the specification, read entry by entry
    from a model [m] under the values [env] of its variables: two
    Exponential(lam) hyperpriors per family, held as the two entries of
    [alpha] and of [beta]; per precinct a Beta rate for each family with
    the hyperparameters of its family; per precinct a Binomial count with
    the voting population as [n] and the estimate as [p], observed at the
    given count. *)
Definition three_level_structure (m : Model) (env : gmap string value)
    (lam : fval) (g : string) (nv vp est : list fval)
    (alpha_min beta_min alpha_maj beta_maj : fval) : Prop :=
  random_vars m =
    [ "alpha"; "beta"; "pct_minority_voting_" +:+ g; "pct_majority_voting_" +:+ g;
      "votes_for_" +:+ g ] /\
  (forall k : nat,
     (k < 2 ->
      var_at m env "alpha" k = Some (ScalarRV (SExponential lam) None) /\
      var_at m env "beta" k = Some (ScalarRV (SExponential lam) None)) /\
     (2 <= k -> var_at m env "alpha" k = None /\ var_at m env "beta" k = None)) /\
  (forall i : nat,
     (i < length vp ->
      var_at m env ("pct_minority_voting_" +:+ g) i =
        Some (ScalarRV (SBeta alpha_min beta_min) None) /\
      var_at m env ("pct_majority_voting_" +:+ g) i =
        Some (ScalarRV (SBeta alpha_maj beta_maj) None)) /\
     (length vp <= i ->
      var_at m env ("pct_minority_voting_" +:+ g) i = None /\
      var_at m env ("pct_majority_voting_" +:+ g) i = None /\
      var_at m env ("votes_for_" +:+ g) i = None)) /\
  (forall (i : nat) (ni vi ei : fval),
     nv !! i = Some ni -> vp !! i = Some vi -> est !! i = Some ei ->
     var_at m env ("votes_for_" +:+ g) i =
       Some (ScalarRV (SBinomial vi ei) (Some ni))).

(** A table of two precincts, the second one without population, and a
    ragged table that no data frame can hold. *)
Definition ex_df : DataFrame :=
  <["Total" := [100; 0]%Q]>
    (<["White Alone" := [70; 0]%Q]>
       (<["DEM" := [50; 30]%Q]> (<["REP" := [40; 20]%Q]> ∅))).


Definition ex_kwargs : gmap string pyval :=
  <["chains" := PyInt 4]> (<["random_seed" := PyInt 42]> ∅).


(** The columns [run_ecological_inference] reads, in the order of their
    first use. *)
Definition required_columns : list string := ["Total"; "White Alone"; "DEM"; "REP"].

Definition first_missing (df : DataFrame) : option string :=
  List.find (fun c => negb (bool_decide (is_Some (df !! c)))) required_columns.

(** * Properties *)

(** ** Arithmetic on concrete values *)

Example true_divide_finite : true_divide (100 - 70) 100 = Fin ((100 - 70) / 100).
Proof. reflexivity. Qed.

Example true_divide_zero_by_zero : true_divide (0 - 0) 0 = NaN.
Proof. reflexivity. Qed.

Example true_divide_positive_by_zero : true_divide (5 - 2) 0 = PInf.
Proof. reflexivity. Qed.

Example true_divide_negative_by_zero : true_divide (2 - 5) 0 = NInf.
Proof. reflexivity. Qed.

Example nan_spoils_the_estimate :
  fadd (fmul NaN (Fin (1 # 4))) (fmul (fsub (Fin 1) NaN) (Fin (1 # 5))) = NaN.
Proof. reflexivity. Qed.

Example length_error_msg_text :
  length_error_msg =
  "Each of `num_votes_for_group`, `voting_population`, and `pct_minority` mustbe an iterable of the same length (which is the number of precincts)".
Proof. reflexivity. Qed.

(** ** The monad *)



Lemma add_random_variable_fresh (nd : node) (m : Model) :
  node_name nd ∉ named_vars m ->
  add_random_variable nd m = (inr (TVar (node_name nd)), (m ++ [nd])%list).
Proof.
  intros Hfresh. unfold add_random_variable.
  now rewrite bool_decide_eq_false_2.
Qed.

(** ** Names *)

Ltac names_differ :=
  cbv [format1 String.append named_vars fmap list_fmap node_name];
  rewrite ?elem_of_cons, ?elem_of_nil; intuition congruence.



(** ** The model builder *)

Lemma length_check_true (nv vp pm : ndarray) :
  same_lengths nv vp pm ->
  forallb (fun len_data => len_data =? length vp) [length nv; length vp; length pm] = true.
Proof.
  intros [Hnv Hpm]. cbn. rewrite Hnv, Hpm, Nat.eqb_refl. reflexivity.
Qed.

Lemma length_check_false (nv vp pm : ndarray) :
  ~ same_lengths nv vp pm ->
  forallb (fun len_data => len_data =? length vp) [length nv; length vp; length pm] = false.
Proof.
  intros Hne. cbn. rewrite Nat.eqb_refl. cbn.
  destruct (Nat.eqb_spec (length nv) (length vp)) as [Hnv|]; [|reflexivity].
  destruct (Nat.eqb_spec (length pm) (length vp)) as [Hpm|]; [|reflexivity].
  exfalso. apply Hne. split; assumption.
Qed.

Lemma model_built {E : Type} (nv vp pm : ndarray) (lam : fval) (g : string) (w : world E) :
  same_lengths nv vp pm ->
  ecological_inference_model nv vp pm lam g w =
  (inr (declared_nodes nv vp pm lam g), World (w_engine w) (w_log w ++ [EvModel])%list).
Proof.
  intros Hlen. unfold ecological_inference_model.
  rewrite length_check_true by assumption. cbn [negb].
  unfold with_pm_Model, emit, modify, bind.
  unfold pm_Exponential, pm_Beta, pm_Deterministic, pm_Binomial.
  rewrite (add_random_variable_fresh _ []) by names_differ. cbn [app node_name].
  rewrite add_random_variable_fresh by names_differ. cbn [app node_name].
  rewrite add_random_variable_fresh by names_differ. cbn [app node_name].
  rewrite add_random_variable_fresh by names_differ. cbn [app node_name].
  rewrite add_random_variable_fresh by names_differ. cbn [app node_name].
  rewrite add_random_variable_fresh by names_differ. cbn [app node_name].
  reflexivity.
Qed.

Lemma model_refused {E : Type} (nv vp pm : ndarray) (lam : fval) (g : string) (w : world E) :
  ~ same_lengths nv vp pm ->
  ecological_inference_model nv vp pm lam g w = (inl (TypeError length_error_msg), w).
Proof.
  intros Hlen. unfold ecological_inference_model.
  rewrite length_check_false by assumption. reflexivity.
Qed.

(** C1. Arrays whose lengths are not all equal are refused with the
    TypeError before [pm.Model()] is called (the world is unchanged);
    arrays of one length are accepted and a model is returned. *)
Theorem length_validation {E : Type} (nv vp pm : ndarray) (lam : fval) (g : string)
    (w : world E) :
  (~ same_lengths nv vp pm ->
     ecological_inference_model nv vp pm lam g w = (inl (TypeError length_error_msg), w)) /\
  (same_lengths nv vp pm ->
     exists (m : Model) (w' : world E),
       ecological_inference_model nv vp pm lam g w = (inr m, w') /\
       models_created (w_log w') = S (models_created (w_log w))).
Proof.
  split; intros Hlen.
  - now apply model_refused.
  - eexists _, _. split; [now apply model_built|].
    cbn. unfold models_created. rewrite List.filter_app, length_app. cbn. lia.
Qed.

Lemma length_validation_witness :
  ecological_inference_model (E := nat) [Fin 50; Fin 60] [Fin 100] [Fin (3 # 10)]
    default_lam "dem" w0 = (inl (TypeError length_error_msg), w0) /\
  exists (m : Model) (w' : world nat),
    ecological_inference_model [Fin 50] [Fin 100] [Fin (3 # 10)] default_lam "dem" w0
      = (inr m, w') /\
    models_created (w_log w') = 1.
Proof.
  split.
  - apply (length_validation [Fin 50; Fin 60] [Fin 100] [Fin (3 # 10)] default_lam "dem" w0).
    unfold same_lengths. cbn. lia.
  - apply (length_validation [Fin 50] [Fin 100] [Fin (3 # 10)] default_lam "dem" w0).
    unfold same_lengths. cbn. lia.
Defined.

Lemma model_returned_inv {E : Type} (nv vp pm : ndarray) (lam : fval) (g : string)
    (w w' : world E) (m : Model) :
  ecological_inference_model nv vp pm lam g w = (inr m, w') ->
  same_lengths nv vp pm /\ m = declared_nodes nv vp pm lam g.
Proof.
  intros Hrun.
  destruct (decide (length nv = length vp /\ length pm = length vp)) as [Hlen|Hlen].
  - rewrite model_built in Hrun by exact Hlen. split; [exact Hlen | congruence].
  - rewrite model_refused in Hrun by exact Hlen. discriminate.
Qed.

(** ** Variables of the declared model *)

Ltac find_var :=
  unfold lookup_var, declared_nodes; cbn [List.find node_name];
  repeat first
    [ rewrite String.eqb_refl
    | rewrite (proj2 (String.eqb_neq _ _))
        by (cbv [format1 String.append]; congruence) ];
  reflexivity.

Lemma lookup_votes (nv vp pm : ndarray) (lam : fval) (g : string) :
  lookup_var (declared_nodes nv vp pm lam g) (format1 "votes_for_" g) =
  Some (ObservedRV (format1 "votes_for_" g)
          (Binomial (TArray vp) (TVar (format1 "est_voting_" g))) (length vp) nv).
Proof. find_var. Qed.

Lemma lookup_alpha (nv vp pm : ndarray) (lam : fval) (g : string) :
  lookup_var (declared_nodes nv vp pm lam g) "alpha" =
  Some (FreeRV "alpha" (Exponential (TConst lam)) 2).
Proof. find_var. Qed.

Lemma lookup_beta (nv vp pm : ndarray) (lam : fval) (g : string) :
  lookup_var (declared_nodes nv vp pm lam g) "beta" =
  Some (FreeRV "beta" (Exponential (TConst lam)) 2).
Proof. find_var. Qed.

Lemma lookup_minority (nv vp pm : ndarray) (lam : fval) (g : string) :
  lookup_var (declared_nodes nv vp pm lam g) (format1 "pct_minority_voting_" g) =
  Some (FreeRV (format1 "pct_minority_voting_" g)
          (Beta (TIndex (TVar "alpha") 0) (TIndex (TVar "beta") 0)) (length vp)).
Proof. find_var. Qed.

Lemma lookup_majority (nv vp pm : ndarray) (lam : fval) (g : string) :
  lookup_var (declared_nodes nv vp pm lam g) (format1 "pct_majority_voting_" g) =
  Some (FreeRV (format1 "pct_majority_voting_" g)
          (Beta (TIndex (TVar "alpha") 1) (TIndex (TVar "beta") 1)) (length vp)).
Proof. find_var. Qed.

(** ** The deterministic estimate *)

Lemma broadcast2_same (f : fval -> fval -> fval) (xs ys : list fval) :
  length xs = length ys ->
  broadcast2 f (VVector xs) (VVector ys) = Some (VVector (zip_with f xs ys)).
Proof.
  intros Hlen. unfold broadcast2.
  now rewrite (proj2 (Nat.eqb_eq _ _) Hlen).
Qed.

Lemma eval_est (draw : gmap string value) (pm a b : list fval) (minority majority : string) :
  draw !! minority = Some (VVector a) ->
  draw !! majority = Some (VVector b) ->
  length a = length pm -> length b = length pm ->
  eval draw (TAdd (TMul (TArray pm) (TVar minority))
                  (TMul (TArray (np_rsub (Fin 1) pm)) (TVar majority))) =
  Some (VVector (zip_with fadd (zip_with fmul pm a)
                              (zip_with fmul (np_rsub (Fin 1) pm) b))).
Proof.
  intros Ha Hb Hla Hlb. cbn [eval]. rewrite Ha, Hb. cbn [mbind option_bind].
  rewrite (broadcast2_same fmul pm a) by lia.
  rewrite (broadcast2_same fmul (np_rsub (Fin 1) pm) b)
    by (unfold np_rsub; rewrite length_fmap; lia).
  cbn [mbind option_bind]. apply broadcast2_same.
  unfold np_rsub. rewrite !length_zip_with, length_fmap. lia.
Qed.

Lemma model_env_declared (nv vp pm : ndarray) (lam : fval) (g : string)
    (draw : gmap string value) (a b : list fval) :
  draw !! format1 "pct_minority_voting_" g = Some (VVector a) ->
  draw !! format1 "pct_majority_voting_" g = Some (VVector b) ->
  length a = length pm -> length b = length pm ->
  model_env (declared_nodes nv vp pm lam g) draw =
  <[format1 "est_voting_" g :=
      VVector (zip_with fadd (zip_with fmul pm a) (zip_with fmul (np_rsub (Fin 1) pm) b))]>
    draw.
Proof.
  intros Ha Hb Hla Hlb. unfold model_env, declared_nodes. cbn [foldl].
  now rewrite (eval_est draw pm a b _ _ Ha Hb Hla Hlb).
Qed.

Lemma est_entry (pm a b : list fval) (i : nat) (mi ai bi : fval) :
  pm !! i = Some mi -> a !! i = Some ai -> b !! i = Some bi ->
  zip_with fadd (zip_with fmul pm a) (zip_with fmul (np_rsub (Fin 1) pm) b) !! i =
  Some (fadd (fmul mi ai) (fmul (fsub (Fin 1) mi) bi)).
Proof.
  intros Hm Ha Hb. unfold np_rsub.
  rewrite !lookup_zip_with, list_lookup_fmap, Hm, Ha, Hb. reflexivity.
Qed.

Lemma est_length (pm a b : list fval) :
  length a = length pm -> length b = length pm ->
  length (zip_with fadd (zip_with fmul pm a) (zip_with fmul (np_rsub (Fin 1) pm) b)) =
  length pm.
Proof.
  intros Ha Hb. unfold np_rsub. rewrite !length_zip_with, length_fmap. lia.
Qed.

(** C2. For any draw of the two latent vectors (of the declared shape),
    entry i of [est_voting_<group>] is
    [pct_minority[i] * minority[i] + (1 - pct_minority[i]) * majority[i]],
    computed with the array operations of the code. *)
Theorem est_voting_is_weighted_sum {E : Type} (nv vp pm : ndarray) (lam : fval)
    (g : string) (w w' : world E) (m : Model) (draw : gmap string value)
    (a b : list fval) :
  ecological_inference_model nv vp pm lam g w = (inr m, w') ->
  draw !! format1 "pct_minority_voting_" g = Some (VVector a) ->
  draw !! format1 "pct_majority_voting_" g = Some (VVector b) ->
  length a = length vp -> length b = length vp ->
  exists est : list fval,
    model_env m draw !! format1 "est_voting_" g = Some (VVector est) /\
    length est = length vp /\
    forall (i : nat) (mi ai bi : fval),
      pm !! i = Some mi -> a !! i = Some ai -> b !! i = Some bi ->
      est !! i = Some (fadd (fmul mi ai) (fmul (fsub (Fin 1) mi) bi)).
Proof.
  intros Hrun Ha Hb Hla Hlb.
  apply model_returned_inv in Hrun as [[Hnv Hpm] ->].
  eexists. rewrite (model_env_declared nv vp pm lam g draw a b) by (assumption || lia).
  rewrite lookup_insert_eq. split; [reflexivity|]. split.
  - rewrite est_length by lia. exact Hpm.
  - intros i mi ai bi. apply est_entry.
Qed.

Lemma est_voting_is_weighted_sum_witness :
  exists est : list fval,
    model_env (declared_nodes ex_votes ex_population ex_minority default_lam "dem") ex_draw
      !! "est_voting_dem" = Some (VVector est) /\
    length est = 2 /\
    forall (i : nat) (mi ai bi : fval),
      ex_minority !! i = Some mi ->
      (Fin <$> ex_minority_rates) !! i = Some ai ->
      (Fin <$> ex_majority_rates) !! i = Some bi ->
      est !! i = Some (fadd (fmul mi ai) (fmul (fsub (Fin 1) mi) bi)).
Proof.
  apply (est_voting_is_weighted_sum ex_votes ex_population ex_minority default_lam "dem"
           w0 (World 0 [EvModel]) _ ex_draw
           (Fin <$> ex_minority_rates) (Fin <$> ex_majority_rates));
    reflexivity.
Defined.

(** C7. Where the minority fraction is 0 the estimate is the majority
    rate, and where it is 1 it is the minority rate, for all values of the
    latent rates. *)
Theorem est_voting_degenerate {E : Type} (nv vp pm : ndarray) (lam : fval)
    (g : string) (w w' : world E) (m : Model) (draw : gmap string value)
    (a b : list Q) :
  ecological_inference_model nv vp pm lam g w = (inr m, w') ->
  draw !! format1 "pct_minority_voting_" g = Some (VVector (Fin <$> a)) ->
  draw !! format1 "pct_majority_voting_" g = Some (VVector (Fin <$> b)) ->
  length a = length vp -> length b = length vp ->
  exists est : list fval,
    model_env m draw !! format1 "est_voting_" g = Some (VVector est) /\
    forall (i : nat) (q ai bi : Q),
      pm !! i = Some (Fin q) -> a !! i = Some ai -> b !! i = Some bi ->
      ((q == 0)%Q -> exists x : fval, est !! i = Some x /\ feq x (Fin bi)) /\
      ((q == 1)%Q -> exists x : fval, est !! i = Some x /\ feq x (Fin ai)).
Proof.
  intros Hrun Ha Hb Hla Hlb.
  apply model_returned_inv in Hrun as [[Hnv Hpm] ->].
  eexists.
  rewrite (model_env_declared nv vp pm lam g draw (Fin <$> a) (Fin <$> b))
    by (assumption || (rewrite length_fmap; lia)).
  rewrite lookup_insert_eq. split; [reflexivity|].
  intros i q ai bi Hq Hai Hbi.
  assert (Hentry := est_entry pm (Fin <$> a) (Fin <$> b) i (Fin q) (Fin ai) (Fin bi) Hq).
  rewrite !list_lookup_fmap, Hai, Hbi in Hentry.
  specialize (Hentry eq_refl eq_refl).
  split; intros Hval; eexists; (split; [exact Hentry|]); cbn; rewrite Hval; ring.
Qed.

Lemma est_voting_degenerate_witness :
  exists est : list fval,
    model_env (declared_nodes ex_votes ex_population ex_minority default_lam "dem") ex_draw
      !! "est_voting_dem" = Some (VVector est) /\
    forall (i : nat) (q ai bi : Q),
      ex_minority !! i = Some (Fin q) ->
      ex_minority_rates !! i = Some ai -> ex_majority_rates !! i = Some bi ->
      ((q == 0)%Q -> exists x : fval, est !! i = Some x /\ feq x (Fin bi)) /\
      ((q == 1)%Q -> exists x : fval, est !! i = Some x /\ feq x (Fin ai)).
Proof.
  apply (est_voting_degenerate ex_votes ex_population ex_minority default_lam "dem"
           w0 (World 0 [EvModel]) _ ex_draw ex_minority_rates ex_majority_rates);
    reflexivity.
Defined.

(** C8. The builder compares lengths only: for every triple of arrays of
    one length, whatever the relation between the vote counts and the
    voting population, the model is built, and its observed variable keeps
    the counts and the population as given. *)
Theorem no_domain_check {E : Type} (nv vp pm : ndarray) (lam : fval) (g : string)
    (w : world E) :
  same_lengths nv vp pm ->
  exists (m : Model) (w' : world E),
    ecological_inference_model nv vp pm lam g w = (inr m, w') /\
    lookup_var m (format1 "votes_for_" g) =
      Some (ObservedRV (format1 "votes_for_" g)
              (Binomial (TArray vp) (TVar (format1 "est_voting_" g))) (length vp) nv).
Proof.
  intros Hlen. eexists _, _. split.
  - now apply model_built.
  - apply lookup_votes.
Qed.

Lemma no_domain_check_witness :
  exists (m : Model) (w' : world nat),
    ecological_inference_model [Fin 150] [Fin 100] [Fin (3 # 10)] default_lam "dem" w0
      = (inr m, w') /\
    lookup_var m "votes_for_dem" =
      Some (ObservedRV "votes_for_dem"
              (Binomial (TArray [Fin 100]) (TVar "est_voting_dem")) 1 [Fin 150]).
Proof.
  apply (no_domain_check [Fin 150] [Fin 100] [Fin (3 # 10)] default_lam "dem" w0).
  unfold same_lengths. cbn. lia.
Defined.




(** ** The structure of the model *)

Lemma elem_vector (l : list fval) (i : nat) (x : fval) :
  l !! i = Some x -> elem (VVector l) i = Some x.
Proof.
  intros Hl. unfold elem. destruct l as [|y [|z l]]; try exact Hl.
  destruct i; cbn in Hl; [exact Hl | discriminate].
Qed.

Lemma ltb_true (i n : nat) : i < n -> (i <? n) = true.
Proof. intros Hlt. now apply Nat.ltb_lt. Qed.

Lemma ltb_false (i n : nat) : n <= i -> (i <? n) = false.
Proof. intros Hle. now apply Nat.ltb_ge. Qed.

Lemma est_name_not_hyper (g : string) :
  format1 "est_voting_" g <> "alpha" /\ format1 "est_voting_" g <> "beta".
Proof. cbv [format1 String.append]. split; congruence. Qed.

(** C3. The model returned for data of one length has the three-level
    structure: Exponential(lam) hyperpriors [alpha] and [beta] with one
    entry per family, Beta latent rates per precinct with the
    hyperparameters of their family, and Binomial counts per precinct with
    [n = voting_population[i]], [p = est[i]], observed at
    [num_votes_for_group[i]]. *)
Theorem model_is_three_level {E : Type} (nv vp pm : ndarray) (lam : fval) (g : string)
    (w w' : world E) (m : Model) (draw : gmap string value)
    (a0 a1 b0 b1 : fval) (pa pb : list fval) :
  ecological_inference_model nv vp pm lam g w = (inr m, w') ->
  draw !! "alpha" = Some (VVector [a0; a1]) ->
  draw !! "beta" = Some (VVector [b0; b1]) ->
  draw !! format1 "pct_minority_voting_" g = Some (VVector pa) ->
  draw !! format1 "pct_majority_voting_" g = Some (VVector pb) ->
  length pa = length vp -> length pb = length vp ->
  exists est : list fval,
    model_env m draw !! format1 "est_voting_" g = Some (VVector est) /\
    length est = length vp /\
    three_level_structure m (model_env m draw) lam g nv vp est a0 b0 a1 b1.
Proof.
  intros Hrun Halpha Hbeta Hpa Hpb Hla Hlb.
  apply model_returned_inv in Hrun as [[Hnv Hpm] ->].
  destruct (est_name_not_hyper g) as [Hne_a Hne_b].
  eexists. rewrite (model_env_declared nv vp pm lam g draw pa pb) by (assumption || lia).
  set (est := zip_with fadd _ _).
  set (env := <[format1 "est_voting_" g := VVector est]> draw).
  assert (Henv_est : env !! format1 "est_voting_" g = Some (VVector est))
    by apply lookup_insert_eq.
  assert (Henv_a : env !! "alpha" = Some (VVector [a0; a1]))
    by (subst env; now rewrite lookup_insert_ne).
  assert (Henv_b : env !! "beta" = Some (VVector [b0; b1]))
    by (subst env; now rewrite lookup_insert_ne).
  split; [exact Henv_est|]. split; [subst est; rewrite est_length by lia; exact Hpm|].
  unfold three_level_structure, var_at. fold (format1 "pct_minority_voting_" g).
  fold (format1 "pct_majority_voting_" g). fold (format1 "votes_for_" g).
  rewrite lookup_alpha, lookup_beta, lookup_minority, lookup_majority, lookup_votes.
  cbn [mbind option_bind rv_at].
  split; [reflexivity|]. split; [|split].
  - intros k. split; intros Hk.
    + rewrite (ltb_true k 2) by exact Hk. split; reflexivity.
    + rewrite (ltb_false k 2) by exact Hk. split; reflexivity.
  - intros i. split; intros Hi.
    + rewrite ltb_true by exact Hi.
      unfold dist_at, param_at. cbn [eval]. rewrite Henv_a, Henv_b.
      split; reflexivity.
    + rewrite ltb_false by exact Hi. repeat split; reflexivity.
  - intros i ni vi ei Hni Hvi Hei.
    rewrite ltb_true by (eapply lookup_lt_Some; exact Hvi).
    unfold dist_at, param_at. cbn [eval]. rewrite Henv_est.
    cbn [mbind option_bind].
    rewrite (elem_vector vp i vi Hvi), (elem_vector est i ei Hei). cbn [mbind option_bind].
    rewrite Hni. reflexivity.
Qed.

Lemma model_is_three_level_witness :
  exists est : list fval,
    model_env (declared_nodes ex_votes ex_population ex_minority default_lam "dem") ex_draw
      !! "est_voting_dem" = Some (VVector est) /\
    length est = 2 /\
    three_level_structure
      (declared_nodes ex_votes ex_population ex_minority default_lam "dem")
      (model_env (declared_nodes ex_votes ex_population ex_minority default_lam "dem") ex_draw)
      default_lam "dem" ex_votes ex_population est (Fin 2) (Fin 5) (Fin 3) (Fin 7).
Proof.
  apply (model_is_three_level ex_votes ex_population ex_minority default_lam "dem"
           w0 (World 0 [EvModel]) _ ex_draw (Fin 2) (Fin 3) (Fin 5) (Fin 7)
           (Fin <$> ex_minority_rates) (Fin <$> ex_majority_rates));
    reflexivity.
Defined.

(** ** The sampler wrapper *)

Section SamplerProperties.

Context {E MultiTrace : Type}.
Variable pm_sample : sample_call -> E -> (exn + MultiTrace) * E.

Lemma run_after_lookups (df : DataFrame) (kw : gmap string pyval) (T W D R : list Q)
    (w : world E) :
  df !! "Total" = Some T -> df !! "White Alone" = Some W ->
  df !! "DEM" = Some D -> df !! "REP" = Some R ->
  run_ecological_inference pm_sample df kw w =
  bind (ecological_inference_model (values D) (values (series_add D R))
          (series_truediv (series_sub T W) T) default_lam default_group_name)
       (fun model => sampling_step pm_sample model kw) w.
Proof.
  intros HT HW HD HR. unfold run_ecological_inference, df_getitem.
  rewrite HT, HW, HD, HR. reflexivity.
Qed.

Lemma derived_lengths (n : nat) (df : DataFrame) (T W D R : list Q) :
  df_rows n df ->
  df !! "Total" = Some T -> df !! "White Alone" = Some W ->
  df !! "DEM" = Some D -> df !! "REP" = Some R ->
  length (values D) = n /\ length (values (series_add D R)) = n /\
  length (series_truediv (series_sub T W) T) = n.
Proof.
  intros Hrows HT HW HD HR.
  apply Hrows in HT, HW, HD, HR. cbn beta in *.
  unfold values, series_add, series_truediv, series_sub.
  rewrite !length_fmap, !length_zip_with. lia.
Qed.




End SamplerProperties.



(** C4. For a table with the four columns, the arrays handed to
    [ecological_inference_model] are, row by row, (Total - White Alone) /
    Total, DEM + REP and DEM, and the model is built with lam = 0.5 and
    the group name "dem". *)
Theorem wrapper_derives_model_inputs {E MultiTrace : Type}
    (pm_sample : sample_call -> E -> (exn + MultiTrace) * E)
    (n : nat) (df : DataFrame) (kw : gmap string pyval) (T W D R : list Q)
    (w : world E) :
  df_rows n df ->
  df !! "Total" = Some T -> df !! "White Alone" = Some W ->
  df !! "DEM" = Some D -> df !! "REP" = Some R ->
  exists nv vp pct : ndarray,
    run_ecological_inference pm_sample df kw w =
      bind (ecological_inference_model nv vp pct (Fin (1 # 2)) "dem")
           (fun model => sampling_step pm_sample model kw) w /\
    ecological_inference_model nv vp pct (Fin (1 # 2)) "dem" w =
      (inr (declared_nodes nv vp pct (Fin (1 # 2)) "dem"),
       World (w_engine w) (w_log w ++ [EvModel])%list) /\
    length nv = n /\ length vp = n /\ length pct = n /\
    forall (i : nat) (t wh d r : Q),
      T !! i = Some t -> W !! i = Some wh -> D !! i = Some d -> R !! i = Some r ->
      pct !! i = Some (true_divide (t - wh) t) /\
      vp !! i = Some (Fin (d + r)) /\
      nv !! i = Some (Fin d).
Proof.
  intros Hrows HT HW HD HR.
  destruct (derived_lengths n df T W D R Hrows HT HW HD HR) as (Hnv & Hvp & Hpct).
  exists (values D), (values (series_add D R)), (series_truediv (series_sub T W) T).
  split; [exact (run_after_lookups pm_sample df kw T W D R w HT HW HD HR)|].
  split; [apply model_built; split; congruence|].
  repeat (split; [assumption|]).
  intros i t wh d r Ht Hwh Hd Hr.
  unfold values, series_add, series_truediv, series_sub.
  rewrite !list_lookup_fmap, !lookup_zip_with, Ht, Hwh, Hd, Hr.
  repeat split; reflexivity.
Qed.

Lemma ex_df_rows : df_rows 2 ex_df.
Proof.
  unfold df_rows, ex_df.
  repeat (apply map_Forall_insert_2; [reflexivity|]).
  apply map_Forall_empty.
Qed.

Lemma wrapper_derives_model_inputs_witness :
  exists nv vp pct : ndarray,
    run_ecological_inference names_engine ex_df ex_kwargs w0 =
      bind (ecological_inference_model nv vp pct (Fin (1 # 2)) "dem")
           (fun model => sampling_step names_engine model ex_kwargs) w0 /\
    ecological_inference_model nv vp pct (Fin (1 # 2)) "dem" w0 =
      (inr (declared_nodes nv vp pct (Fin (1 # 2)) "dem"), World 0 [EvModel]) /\
    length nv = 2 /\ length vp = 2 /\ length pct = 2 /\
    forall (i : nat) (t wh d r : Q),
      [100; 0]%Q !! i = Some t -> [70; 0]%Q !! i = Some wh ->
      [50; 30]%Q !! i = Some d -> [40; 20]%Q !! i = Some r ->
      pct !! i = Some (true_divide (t - wh) t) /\
      vp !! i = Some (Fin (d + r)) /\
      nv !! i = Some (Fin d).
Proof.
  apply (wrapper_derives_model_inputs names_engine 2 ex_df ex_kwargs
           [100; 0]%Q [70; 0]%Q [50; 30]%Q [40; 20]%Q w0);
    [exact ex_df_rows | reflexivity | reflexivity | reflexivity | reflexivity].
Defined.








(** * Further properties of the model builder and the wrapper *)

(** X1. A table that lacks one of the four columns makes the wrapper raise
    KeyError for the first missing one, in the order Total, White Alone,
    DEM, REP; no model is created and the engine is not invoked. *)
Theorem missing_column_raises_KeyError {E MultiTrace : Type}
    (pm_sample : sample_call -> E -> (exn + MultiTrace) * E)
    (df : DataFrame) (kw : gmap string pyval) (w : world E) (col : string) :
  first_missing df = Some col ->
  run_ecological_inference pm_sample df kw w = (inl (KeyError col), w).
Proof.
  unfold first_missing, required_columns, run_ecological_inference, df_getitem.
  cbn [List.find].
  destruct (df !! "Total") as [T|] eqn:HT; cbn.
  2: { intros [= <-]. reflexivity. }
  destruct (df !! "White Alone") as [W|] eqn:HW; cbn.
  2: { intros [= <-]. reflexivity. }
  destruct (df !! "DEM") as [D|] eqn:HD; cbn.
  2: { intros [= <-]. reflexivity. }
  destruct (df !! "REP") as [R|] eqn:HR; cbn.
  2: { intros [= <-]. reflexivity. }
  discriminate.
Qed.

Lemma missing_column_raises_KeyError_witness :
  run_ecological_inference names_engine (delete "DEM" ex_df) ex_kwargs w0 =
    (inl (KeyError "DEM"), w0).
Proof.
  apply (missing_column_raises_KeyError names_engine (delete "DEM" ex_df) ex_kwargs w0 "DEM").
  reflexivity.
Defined.



Lemma fmul_nonfinite_l (x y : fval) : is_finite x = false -> is_finite (fmul x y) = false.
Proof.
  destruct x as [q| | |]; [discriminate| | |]; intros _;
    destruct y as [r| | |]; cbn; try reflexivity; destruct (r ?= 0)%Q; reflexivity.
Qed.

Lemma fadd_nonfinite_l (x y : fval) : is_finite x = false -> is_finite (fadd x y) = false.
Proof.
  destruct x as [q| | |]; [discriminate| | |]; intros _; destruct y; reflexivity.
Qed.

Lemma lookup_same_length {A B : Type} (l : list A) (k : list B) (i : nat) (x : A) :
  l !! i = Some x -> length k = length l -> exists y : B, k !! i = Some y.
Proof.
  intros Hl Hlen. apply lookup_lt_is_Some. rewrite Hlen. eapply lookup_lt_Some, Hl.
Qed.

(** X3. A minority fraction that is not a finite number (inf, -inf or
    nan) makes the estimate of its precinct not a finite number, for every
    draw of the latent rates. *)
Theorem nonfinite_fraction_poisons_estimate {E : Type} (nv vp pm : ndarray) (lam : fval)
    (g : string) (w w' : world E) (m : Model) (draw : gmap string value)
    (a b : list fval) :
  ecological_inference_model nv vp pm lam g w = (inr m, w') ->
  draw !! format1 "pct_minority_voting_" g = Some (VVector a) ->
  draw !! format1 "pct_majority_voting_" g = Some (VVector b) ->
  length a = length vp -> length b = length vp ->
  exists est : list fval,
    model_env m draw !! format1 "est_voting_" g = Some (VVector est) /\
    forall (i : nat) (mi : fval),
      pm !! i = Some mi -> is_finite mi = false ->
      exists x : fval, est !! i = Some x /\ is_finite x = false.
Proof.
  intros Hrun Ha Hb Hla Hlb.
  apply model_returned_inv in Hrun as [[Hnv Hpm] ->].
  eexists. rewrite (model_env_declared nv vp pm lam g draw a b) by (assumption || lia).
  rewrite lookup_insert_eq. split; [reflexivity|].
  intros i mi Hmi Hnf.
  destruct (lookup_same_length pm a i mi Hmi) as [ai Hai]; [lia|].
  destruct (lookup_same_length pm b i mi Hmi) as [bi Hbi]; [lia|].
  eexists. split; [exact (est_entry pm a b i mi ai bi Hmi Hai Hbi)|].
  now apply fadd_nonfinite_l, fmul_nonfinite_l.
Qed.

Lemma nonfinite_fraction_poisons_estimate_witness :
  exists est : list fval,
    model_env (declared_nodes ex_votes ex_population [Fin (3 # 10); NaN] default_lam "dem")
      ex_draw !! "est_voting_dem" = Some (VVector est) /\
    forall (i : nat) (mi : fval),
      [Fin (3 # 10); NaN] !! i = Some mi -> is_finite mi = false ->
      exists x : fval, est !! i = Some x /\ is_finite x = false.
Proof.
  apply (nonfinite_fraction_poisons_estimate ex_votes ex_population [Fin (3 # 10); NaN]
           default_lam "dem" w0 (World 0 [EvModel]) _ ex_draw
           (Fin <$> ex_minority_rates) (Fin <$> ex_majority_rates));
    reflexivity.
Defined.

(** X4. For a row with 0 <= White Alone <= Total, Total > 0 and REP >= 0,
    the inputs the wrapper derives are in the domain of the model: the
    minority fraction is a number of [0, 1] and the votes for the group do
    not exceed the voting population. *)
Theorem derived_inputs_in_domain (T W D R : list Q) (i : nat) (t wh d r : Q) :
  T !! i = Some t -> W !! i = Some wh -> D !! i = Some d -> R !! i = Some r ->
  (0 < t)%Q -> (0 <= wh <= t)%Q -> (0 <= r)%Q ->
  exists q v : Q,
    series_truediv (series_sub T W) T !! i = Some (Fin q) /\
    values (series_add D R) !! i = Some (Fin v) /\
    values D !! i = Some (Fin d) /\
    (0 <= q <= 1)%Q /\ (d <= v)%Q.
Proof.
  intros Ht Hwh Hd Hr Hpos Hw Hrep.
  exists ((t - wh) / t)%Q, (d + r)%Q.
  unfold values, series_add, series_truediv, series_sub.
  rewrite !list_lookup_fmap, !lookup_zip_with, Ht, Hwh, Hd, Hr. cbn.
  unfold true_divide.
  destruct (Qeq_bool t 0) eqn:Hz.
  { apply Qeq_bool_eq in Hz. rewrite Hz in Hpos. now apply Qlt_irrefl in Hpos. }
  repeat split; try lra.
  - apply Qle_shift_div_l; [exact Hpos | lra].
  - apply Qle_shift_div_r; [exact Hpos | lra].
Qed.

Lemma derived_inputs_in_domain_witness :
  exists q v : Q,
    series_truediv (series_sub [100; 0]%Q [70; 0]%Q) [100; 0]%Q !! 0 = Some (Fin q) /\
    values (series_add [50; 30]%Q [40; 20]%Q) !! 0 = Some (Fin v) /\
    values [50; 30]%Q !! 0 = Some (Fin 50) /\
    (0 <= q <= 1)%Q /\ (50 <= v)%Q.
Proof.
  apply (derived_inputs_in_domain [100; 0]%Q [70; 0]%Q [50; 30]%Q [40; 20]%Q 0
           100%Q 70%Q 50%Q 40%Q eq_refl eq_refl eq_refl eq_refl);
    [reflexivity | split; discriminate | discriminate].
Defined.


